(** * Marker serializers of sanity_html

    A shallow embedding of [sanity_html/marker_serializers.py]: the class
    hierarchy rooted at [MarkerSerializer], whose class methods
    [render_prefix], [render_suffix] and [render] wrap the text of a span
    in HTML markup, and the properties its specification states about it.

    Python strings are [string]; a mark definition (a JSON object) is a
    finite map from attribute names to values; exceptions are an explicit
    outcome; the two objects the methods receive by reference (the span
    and the block it belongs to) live in a small heap that the methods
    read through a state-and-exception monad. *)

From Stdlib Require Import Ascii.
From stdpp Require Import base strings gmap list.

(** ** Strings *)

(** The double quote character, as a one-character string. *)
Definition dquote : string := String (ascii_of_nat 34) EmptyString.

(** [c in s] for a character and a string. *)
Fixpoint occurs (c : ascii) (s : string) : bool :=
  match s with
  | EmptyString => false
  | String d r => if decide (c = d) then true else occurs c r
  end.

(** ** Data model *)

(** A Python [dict] with string keys, as parsed from the JSON document:
    the values the serializers look at ([_key], [href]) are strings. *)
Abbreviation Dict := (gmap string string).

(** Modelled from the spec: the [Span] type of [sanity_html.types], which
    the serializers import only for type checking: the raw text of the
    span and the ordered mark keys attached to it. *)
Record Span := { text : string; marks : list string }.

(** Modelled from the spec: the [Block] type of [sanity_html.types]; of
    its fields the serializers read [markDefs], the list of mark
    definitions of the block, each one a JSON object. *)
Record Block := { markDefs : list Dict }.

(** ** Exceptions and outcomes *)

Inductive Exception : Type :=
| ValueError (msg : string)
| KeyError (key : string)
| AttributeError (attr : string).

Inductive Outcome (A : Type) : Type :=
| Return (a : A)
| Raise (e : Exception).
Arguments Return {A} a.
Arguments Raise {A} e.

(** ** The heap and the monad of class methods

    A call [cls.method(span, marker, context)] receives references to a
    span object and a block object.  The heap holds both; a method is a
    function from the heap before the call to its outcome and the heap
    after it. *)
Record Heap := { span : Span; context : Block }.

Definition Py (A : Type) : Type := Heap -> Outcome A * Heap.

Definition ret {A} (a : A) : Py A := fun h => (Return a, h).

Definition raise {A} (e : Exception) : Py A := fun h => (Raise e, h).

Definition bind {A B} (m : Py A) (k : A -> Py B) : Py B :=
  fun h => match m h with
           | (Return a, h') => k a h'
           | (Raise e, h') => (Raise e, h')
           end.

Notation "x <- m ;; k" := (bind m (fun x => k))
  (at level 100, m at next level, right associativity).

(** Attribute reads [span.text] and [context.markDefs]. *)
Definition span_text : Py string := fun h => (Return (text (span h)), h).

Definition context_markDefs : Py (list Dict) :=
  fun h => (Return (markDefs (context h)), h).

(** Attribute writes: what a method that mutates its arguments would use. *)
Definition set_span (s : Span) : Py unit :=
  fun h => (Return tt, {| span := s; context := context h |}).

Definition set_context (b : Block) : Py unit :=
  fun h => (Return tt, {| span := span h; context := b |}).

(** Lifting of a computation that only raises or returns. *)
Definition lift {A} (o : Outcome A) : Py A := fun h => (o, h).

(** The outcome of a call and the heap it leaves. *)
Definition outcome {A} (m : Py A) (h : Heap) : Outcome A := fst (m h).
Definition heap_after {A} (m : Py A) (h : Heap) : Heap := snd (m h).

(** ** Dictionary operations *)

(** [d[k]]: raises [KeyError] on a missing key. *)
Definition getitem (d : Dict) (k : string) : Outcome string :=
  match d !! k with
  | Some v => Return v
  | None => Raise (KeyError k)
  end.

(** [d.get(k, dflt)]. *)
Definition get (d : Dict) (k : string) (dflt : string) : string :=
  match d !! k with
  | Some v => v
  | None => dflt
  end.

(** Truth value of an optional dictionary: [None] and [{}] are falsy. *)
Definition truthy (o : option Dict) : bool :=
  match o with
  | None => false
  | Some d => negb (bool_decide (d = ∅))
  end.

(** ** The class hierarchy *)

Inductive Serializer : Type :=
| MarkerSerializer
| DefaultMarkerSerializer
| EmphasisSerializer
| StrongSerializer
| CodeSerializer
| UnderlineSerializer
| StrikeThroughSerializer
| LinkSerializer
| CommentSerializer.

(** The class attribute [tag]; the base class only declares it. *)
Definition tag (cls : Serializer) : Outcome string :=
  match cls with
  | MarkerSerializer => Raise (AttributeError "tag")
  | DefaultMarkerSerializer => Return "span"
  | EmphasisSerializer => Return "em"
  | StrongSerializer => Return "strong"
  | CodeSerializer => Return "code"
  | UnderlineSerializer => Return "span"
  | StrikeThroughSerializer => Return "del"
  | LinkSerializer => Return "a"
  | CommentSerializer => Return "!--"
  end.

(** [MarkerSerializer.render_prefix]: [f'<{cls.tag}>']. *)
Definition MarkerSerializer_render_prefix
    (cls : Serializer) (marker : string) : Py string :=
  t <- lift (tag cls) ;;
  ret ("<" +:+ t +:+ ">").

(** [MarkerSerializer.render_suffix]: [f'</{cls.tag}>']. *)
Definition MarkerSerializer_render_suffix
    (cls : Serializer) (marker : string) : Py string :=
  t <- lift (tag cls) ;;
  ret ("</" +:+ t +:+ ">").

(** [UnderlineSerializer.render_prefix]. *)
Definition UnderlineSerializer_render_prefix (marker : string) : Py string :=
  ret ("<span style=" +:+ dquote +:+ "text-decoration:underline;"
         +:+ dquote +:+ ">").

(** [next((md for md in markDefs if md['_key'] == marker), None)]: the
    first definition whose [_key] is the marker, [None] when the scan
    reaches the end; a definition without [_key] met on the way raises. *)
Fixpoint next_marker_definition (marker : string) (mds : list Dict)
    : Outcome (option Dict) :=
  match mds with
  | [] => Return None
  | md :: rest =>
      match getitem md "_key" with
      | Raise e => Raise e
      | Return k =>
          if decide (k = marker) then Return (Some md)
          else next_marker_definition marker rest
      end
  end.

(** The message of the error for a marker without definition. *)
Definition not_found_message (marker : string) : string :=
  "Marker definition for key: " +:+ marker
    +:+ " not found in parent block context".

(** [LinkSerializer.render_prefix].  After the test [if not
    marker_definition] the definition is a dictionary: [None] is falsy,
    so the last branch, the call of [get] on [None], is never taken. *)
Definition LinkSerializer_render_prefix (marker : string) : Py string :=
  mds <- context_markDefs ;;
  marker_definition <- lift (next_marker_definition marker mds) ;;
  if negb (truthy marker_definition) then
    raise (ValueError (not_found_message marker))
  else
    match marker_definition with
    | Some md =>
        let href := get md "href" EmptyString in
        ret ("<a href=" +:+ dquote +:+ href +:+ dquote +:+ ">")
    | None => raise (AttributeError "get")
    end.

(** [CommentSerializer.render_prefix] and [CommentSerializer.render_suffix]. *)
Definition CommentSerializer_render_prefix (marker : string) : Py string :=
  ret "<!-- ".

Definition CommentSerializer_render_suffix (marker : string) : Py string :=
  ret " -->".

(** Method resolution: [cls.render_prefix] and [cls.render_suffix]. *)
Definition render_prefix (cls : Serializer) (marker : string) : Py string :=
  match cls with
  | UnderlineSerializer => UnderlineSerializer_render_prefix marker
  | LinkSerializer => LinkSerializer_render_prefix marker
  | CommentSerializer => CommentSerializer_render_prefix marker
  | _ => MarkerSerializer_render_prefix cls marker
  end.

Definition render_suffix (cls : Serializer) (marker : string) : Py string :=
  match cls with
  | CommentSerializer => CommentSerializer_render_suffix marker
  | _ => MarkerSerializer_render_suffix cls marker
  end.

(** [MarkerSerializer.render], inherited by every class: the prefix, then
    [str(span.text)], then the suffix, appended in that order. *)
Definition render (cls : Serializer) (marker : string) : Py string :=
  result <- render_prefix cls marker ;;
  t <- span_text ;;
  let result := result +:+ t in
  s <- render_suffix cls marker ;;
  let result := result +:+ s in
  ret result.

(** ** HTML escaping, as the specification asks for it *)

(** Modelled from the spec: the standard HTML-escaping primitive the
    specification delegates to (Python's [html.escape] with quotes), which
    is not part of the serializers: [&], [<], [>] and both quotes become
    entities. *)
Definition escape_char (c : ascii) : string :=
  if decide (c = "&"%char) then "&amp;"
  else if decide (c = "<"%char) then "&lt;"
  else if decide (c = ">"%char) then "&gt;"
  else if decide (c = ascii_of_nat 34) then "&quot;"
  else if decide (c = "'"%char) then "&#x27;"
  else String c EmptyString.

Fixpoint html_escape (s : string) : string :=
  match s with
  | EmptyString => EmptyString
  | String c r => escape_char c +:+ html_escape r
  end.

(** [cls.method(span, marker, context)] on a span and a block: the outcome
    of the method on the heap that holds the two. *)
Definition call {A} (m : Py A) (sp : Span) (ctx : Block) : Outcome A :=
  outcome m {| span := sp; context := ctx |}.

(** A definition that carries a key, and the key is not [marker]. *)
Definition keyed_otherwise (marker : string) (md : Dict) : Prop :=
  exists k, md !! "_key" = Some k /\ k <> marker.

(** The anchor tag [LinkSerializer] opens for a target. *)
Definition anchor (href : string) : string :=
  "<a href=" +:+ dquote +:+ href +:+ dquote +:+ ">".

(** A method that only reads the heap. *)
Definition read_only {A} (m : Py A) : Prop := forall h, heap_after m h = h.

(** ** Sample documents *)

Definition span_script : Span := {| text := "<script>"; marks := ["em"] |}.

Definition span_plain : Span := {| text := "Sanity"; marks := ["k1"] |}.

Definition block_empty : Block := {| markDefs := [] |}.

(** A mark definition [{"_key": key, "_type": "link", "href": href}]. *)
Definition link_definition (key href : string) : Dict :=
  <["_key" := key]> (<["_type" := "link"]> (<["href" := href]> ∅)).

(** A mark definition [{"_key": key, "_type": "link"}], without target. *)
Definition bare_definition (key : string) : Dict :=
  <["_key" := key]> (<["_type" := "link"]> ∅).

Definition block_links : Block :=
  {| markDefs := [link_definition "k0" "https://otovo.com";
                  link_definition "k1" "https://sanity.io";
                  link_definition "k1" "https://example.com"] |}.

Definition block_quoted : Block :=
  {| markDefs := [link_definition "k1" dquote] |}.

Definition block_bare : Block :=
  {| markDefs := [link_definition "k0" "https://otovo.com";
                  bare_definition "k1"] |}.

(** A mark definition [{"_type": "link", "href": href}]: one that lost
    its key. *)
Definition unkeyed_definition (href : string) : Dict :=
  <["_type" := "link"]> (<["href" := href]> ∅).

Definition block_unkeyed : Block :=
  {| markDefs := [link_definition "k0" "https://otovo.com";
                  unkeyed_definition "https://sanity.io";
                  link_definition "k1" "https://sanity.io"] |}.

(** The block of [block_links] without the repeated key, in another
    order. *)
Definition block_unique : Block :=
  {| markDefs := [link_definition "k0" "https://otovo.com";
                  link_definition "k1" "https://sanity.io"] |}.

Definition block_unique_swapped : Block :=
  {| markDefs := [link_definition "k1" "https://sanity.io";
                  link_definition "k0" "https://otovo.com"] |}.

(** What the link serializer looks at in a mark definition: two
    definitions are alike when they have the same [_key] and the same
    [href], whatever else they carry. *)
Definition same_key_and_href (md md' : Dict) : Prop :=
  md !! "_key" = md' !! "_key" /\ md !! "href" = md' !! "href".

(** * Properties *)

(** ** Strings *)

Lemma append_cons (x : ascii) (a b : string) :
  String x a +:+ b = String x (a +:+ b).
Proof. reflexivity. Qed.

Lemma append_assoc (a b c : string) : (a +:+ b) +:+ c = a +:+ (b +:+ c).
Proof.
  induction a as [|x a IH]; [reflexivity |].
  rewrite !append_cons. f_equal. exact IH.
Qed.

Lemma append_inj_l (a b c : string) : a +:+ b = a +:+ c -> b = c.
Proof.
  induction a as [|x a IH]; intros H; [exact H |].
  rewrite !append_cons in H. injection H as H. now apply IH.
Qed.

(** ** The monad: methods that only read the heap *)

Lemma Return_inj {A} (a b : A) : Return a = Return b -> a = b.
Proof. now intros [= ->]. Qed.

Lemma read_only_ret {A} (a : A) : read_only (ret a).
Proof. intros h. reflexivity. Qed.

Lemma read_only_raise {A} (e : Exception) : read_only (@raise A e).
Proof. intros h. reflexivity. Qed.

Lemma read_only_lift {A} (o : Outcome A) : read_only (lift o).
Proof. intros h. reflexivity. Qed.

Lemma read_only_span_text : read_only span_text.
Proof. intros h. reflexivity. Qed.

Lemma read_only_context_markDefs : read_only context_markDefs.
Proof. intros h. reflexivity. Qed.

Lemma read_only_bind {A B} (m : Py A) (k : A -> Py B) :
  read_only m -> (forall a, read_only (k a)) -> read_only (m <- m ;; k m).
Proof.
  intros Hm Hk h. unfold heap_after, bind.
  specialize (Hm h). unfold heap_after in Hm.
  destruct (m h) as [[a|e] h']; simpl in *; subst h'.
  - apply Hk.
  - reflexivity.
Qed.

(** A write is not read-only: the property tells methods apart. *)
Lemma set_span_not_read_only : ~ read_only (set_span span_script).
Proof.
  intros H. specialize (H {| span := span_plain; context := block_empty |}).
  discriminate H.
Qed.

Create HintDb frame.

#[local] Hint Resolve read_only_ret read_only_raise read_only_lift
  read_only_span_text read_only_context_markDefs : frame.

Ltac frame :=
  repeat first
    [ apply read_only_bind; [| intros ? ]
    | solve [ auto with frame ] ].

Lemma read_only_MarkerSerializer_render_prefix cls marker :
  read_only (MarkerSerializer_render_prefix cls marker).
Proof. unfold MarkerSerializer_render_prefix. frame. Qed.

Lemma read_only_MarkerSerializer_render_suffix cls marker :
  read_only (MarkerSerializer_render_suffix cls marker).
Proof. unfold MarkerSerializer_render_suffix. frame. Qed.

Lemma read_only_LinkSerializer_render_prefix marker :
  read_only (LinkSerializer_render_prefix marker).
Proof.
  unfold LinkSerializer_render_prefix.
  apply read_only_bind; [apply read_only_context_markDefs | intros mds].
  apply read_only_bind; [apply read_only_lift | intros found].
  destruct (negb (truthy found)); [apply read_only_raise |].
  destruct found; [apply read_only_ret | apply read_only_raise].
Qed.

Lemma read_only_render_prefix cls marker : read_only (render_prefix cls marker).
Proof.
  destruct cls; simpl;
    first [ apply read_only_MarkerSerializer_render_prefix
          | apply read_only_LinkSerializer_render_prefix
          | apply read_only_ret ].
Qed.

Lemma read_only_render_suffix cls marker : read_only (render_suffix cls marker).
Proof.
  destruct cls; simpl;
    first [ apply read_only_MarkerSerializer_render_suffix
          | apply read_only_ret ].
Qed.

Lemma read_only_render cls marker : read_only (render cls marker).
Proof.
  unfold render.
  apply read_only_bind; [apply read_only_render_prefix | intros p].
  apply read_only_bind; [apply read_only_span_text | intros t].
  apply read_only_bind; [apply read_only_render_suffix | intros s].
  apply read_only_ret.
Qed.

(** A read-only method is determined by its outcome. *)
Lemma read_only_run {A} (m : Py A) h : read_only m -> m h = (outcome m h, h).
Proof.
  intros Hm. specialize (Hm h). unfold heap_after, outcome in *.
  destruct (m h) as [o h']; simpl in *. now subst.
Qed.

(** The outcome of a sequence whose first part only reads. *)
Lemma outcome_bind {A B} (m : Py A) (k : A -> Py B) h :
  read_only m ->
  outcome (x <- m ;; k x) h =
    match outcome m h with
    | Return a => outcome (k a) h
    | Raise e => Raise e
    end.
Proof.
  intros Hm. unfold outcome at 1. unfold bind.
  rewrite (read_only_run m h Hm). destruct (outcome m h); reflexivity.
Qed.

(** ** The scan of the mark definitions *)

(** Definitions with another key are skipped. *)
Lemma next_marker_definition_skip marker pre rest :
  Forall (keyed_otherwise marker) pre ->
  next_marker_definition marker (pre ++ rest) =
  next_marker_definition marker rest.
Proof.
  induction 1 as [|md pre [k [Hk Hne]] _ IH]; [reflexivity |].
  cbn [app next_marker_definition]. unfold getitem. rewrite Hk.
  destruct (decide (k = marker)); [contradiction | exact IH].
Qed.

(** The scan stops at a definition with the key. *)
Lemma next_marker_definition_hit marker md rest :
  md !! "_key" = Some marker ->
  next_marker_definition marker (md :: rest) = Return (Some md).
Proof.
  intros Hk. cbn [next_marker_definition]. unfold getitem. rewrite Hk.
  destruct (decide (marker = marker)); [reflexivity | contradiction].
Qed.

Lemma next_marker_definition_first marker pre md post :
  Forall (keyed_otherwise marker) pre ->
  md !! "_key" = Some marker ->
  next_marker_definition marker (pre ++ md :: post) = Return (Some md).
Proof.
  intros Hpre Hk. rewrite next_marker_definition_skip by exact Hpre.
  now apply next_marker_definition_hit.
Qed.

Lemma next_marker_definition_absent marker mds :
  Forall (keyed_otherwise marker) mds ->
  next_marker_definition marker mds = Return None.
Proof.
  intros H. rewrite <- (app_nil_r mds).
  now rewrite next_marker_definition_skip.
Qed.

(** The scan never returns a definition with another key, and never an
    empty one. *)
Lemma next_marker_definition_key marker mds md :
  next_marker_definition marker mds = Return (Some md) ->
  md !! "_key" = Some marker.
Proof.
  induction mds as [|d mds IH]; cbn [next_marker_definition]; [discriminate |].
  unfold getitem. destruct (d !! "_key") as [k|] eqn:Hk; [| discriminate].
  destruct (decide (k = marker)) as [->|]; [| exact IH].
  intros [= <-]. exact Hk.
Qed.

Lemma keyed_truthy (md : Dict) k : md !! "_key" = Some k -> truthy (Some md) = true.
Proof.
  intros Hk. unfold truthy. rewrite bool_decide_eq_false_2; [reflexivity |].
  intros ->. rewrite lookup_empty in Hk. discriminate.
Qed.

(** What [LinkSerializer.render_prefix] computes, from the scan. *)
Lemma LinkSerializer_render_prefix_outcome marker h :
  outcome (LinkSerializer_render_prefix marker) h =
    match next_marker_definition marker (markDefs (context h)) with
    | Raise e => Raise e
    | Return None => Raise (ValueError (not_found_message marker))
    | Return (Some md) => Return (anchor (get md "href" EmptyString))
    end.
Proof.
  unfold outcome, LinkSerializer_render_prefix, bind, context_markDefs, lift.
  cbn [fst snd].
  destruct (next_marker_definition marker (markDefs (context h)))
    as [[md|]|e] eqn:Hscan; [| reflexivity | reflexivity].
  apply next_marker_definition_key in Hscan.
  rewrite (keyed_truthy md marker Hscan). reflexivity.
Qed.

(** A marker that is the key of no definition never yields a tag, also
    when some definition carries no key at all. *)
Lemma LinkSerializer_render_prefix_unmatched marker sp ctx :
  Forall (fun md : Dict => md !! "_key" <> Some marker) (markDefs ctx) ->
  exists e, call (render_prefix LinkSerializer marker) sp ctx = Raise e.
Proof.
  intros H. unfold call. cbn [render_prefix].
  rewrite LinkSerializer_render_prefix_outcome. cbn [context markDefs].
  destruct (next_marker_definition marker (markDefs ctx)) as [[md|]|e] eqn:Hscan;
    [| eauto | eauto].
  exfalso. pose proof (next_marker_definition_key _ _ _ Hscan) as Hk.
  assert (Hin : md ∈ markDefs ctx).
  { clear H Hk. revert Hscan. induction (markDefs ctx) as [|d mds IH];
      cbn [next_marker_definition]; [discriminate |].
    unfold getitem. destruct (d !! "_key") as [k|]; [| discriminate].
    destruct (decide (k = marker)).
    - intros [= <-]. apply list_elem_of_here.
    - intros Hs. apply list_elem_of_further. now apply IH. }
  rewrite Forall_forall in H. exact (H md Hin Hk).
Qed.

(** ** [render] *)

(** C1, as amended: for every class, span, marker key and block,
    [render] returns the prefix, then the text of the span as it is
    (no character of it is escaped), then the suffix; when the prefix or
    the suffix raises, so does [render]. *)
Theorem render_concatenates_raw_text :
  forall (cls : Serializer) (marker : string) (sp : Span) (ctx : Block),
    call (render cls marker) sp ctx =
      match call (render_prefix cls marker) sp ctx with
      | Raise e => Raise e
      | Return prefix =>
          match call (render_suffix cls marker) sp ctx with
          | Raise e => Raise e
          | Return suffix => Return (prefix +:+ text sp +:+ suffix)
          end
      end.
Proof.
  intros cls marker sp ctx. unfold call, render.
  rewrite outcome_bind by apply read_only_render_prefix.
  destruct (outcome (render_prefix cls marker) _) as [p|e]; [| reflexivity].
  rewrite outcome_bind by apply read_only_span_text.
  cbn [outcome span_text fst span].
  rewrite outcome_bind by apply read_only_render_suffix.
  destruct (outcome (render_suffix cls marker) _) as [s|e]; [| reflexivity].
  cbn [outcome ret fst]. now rewrite append_assoc.
Qed.

(** C1, as stated, fails: on a span whose text is [<script>] the result of
    [EmphasisSerializer.render] holds the text as it is, not its escaped
    form between the prefix and the suffix. *)
Lemma render_escaped_text_counterexample :
  call (render EmphasisSerializer "em") span_script block_empty
    = Return "<em><script></em>" /\
  ~ (exists prefix suffix,
        call (render_prefix EmphasisSerializer "em") span_script block_empty
          = Return prefix /\
        call (render_suffix EmphasisSerializer "em") span_script block_empty
          = Return suffix /\
        call (render EmphasisSerializer "em") span_script block_empty
          = Return (prefix +:+ html_escape (text span_script) +:+ suffix)).
Proof.
  split; [reflexivity |].
  intros (p & s & Hp & Hs & Hr).
  vm_compute in Hp. vm_compute in Hs.
  injection Hp as <-. injection Hs as <-.
  vm_compute in Hr. discriminate Hr.
Qed.

(** ** [LinkSerializer] *)

(** C2: when every mark definition of the block has a key other than the
    marker key, [LinkSerializer.render_prefix] raises [ValueError], and
    the message of the error spells the marker key out. *)
Theorem link_prefix_dangling_reference :
  forall (sp : Span) (marker : string) (ctx : Block),
    Forall (keyed_otherwise marker) (markDefs ctx) ->
    call (render_prefix LinkSerializer marker) sp ctx =
      Raise (ValueError ("Marker definition for key: " +:+ marker
                           +:+ " not found in parent block context")).
Proof.
  intros sp marker ctx H. unfold call. cbn [render_prefix].
  rewrite LinkSerializer_render_prefix_outcome. cbn [context markDefs].
  now rewrite next_marker_definition_absent.
Qed.

Lemma link_prefix_dangling_reference_witness :
  Forall (keyed_otherwise "k9") (markDefs block_links) /\
  call (render_prefix LinkSerializer "k9") span_plain block_links =
    Raise (ValueError
             "Marker definition for key: k9 not found in parent block context").
Proof.
  assert (H : Forall (keyed_otherwise "k9") (markDefs block_links)).
  { repeat constructor.
    - exists "k0". split; [reflexivity | discriminate].
    - exists "k1". split; [reflexivity | discriminate].
    - exists "k1". split; [reflexivity | discriminate]. }
  split; [exact H |].
  exact (link_prefix_dangling_reference span_plain "k9" block_links H).
Defined.

(** C3, as amended: when the scan of the mark definitions reaches a
    definition with the marker key, [LinkSerializer.render_prefix] returns
    the opening anchor tag whose [href] value is the [href] of that
    definition, character for character (nothing is escaped), and
    [LinkSerializer.render_suffix] returns the closing tag of the anchor. *)
Theorem link_prefix_raw_href :
  forall (sp : Span) (marker : string) (ctx : Block)
         (pre post : list Dict) (md : Dict) (href : string),
    markDefs ctx = pre ++ md :: post ->
    Forall (keyed_otherwise marker) pre ->
    md !! "_key" = Some marker ->
    md !! "href" = Some href ->
    call (render_prefix LinkSerializer marker) sp ctx =
      Return ("<a href=" +:+ dquote +:+ href +:+ dquote +:+ ">") /\
    call (render_suffix LinkSerializer marker) sp ctx = Return "</a>".
Proof.
  intros sp marker ctx pre post md href Hctx Hpre Hk Hhref.
  split; [| reflexivity].
  unfold call. cbn [render_prefix].
  rewrite LinkSerializer_render_prefix_outcome. cbn [context].
  rewrite Hctx, next_marker_definition_first by assumption.
  unfold get. now rewrite Hhref.
Qed.

Lemma link_prefix_raw_href_witness :
  call (render_prefix LinkSerializer "k1") span_plain block_links =
    Return ("<a href=" +:+ dquote +:+ "https://sanity.io" +:+ dquote +:+ ">") /\
  call (render_suffix LinkSerializer "k1") span_plain block_links =
    Return "</a>".
Proof.
  apply (link_prefix_raw_href span_plain "k1" block_links
           [link_definition "k0" "https://otovo.com"]
           [link_definition "k1" "https://example.com"]
           (link_definition "k1" "https://sanity.io") "https://sanity.io").
  - reflexivity.
  - repeat constructor. exists "k0". split; [reflexivity | discriminate].
  - reflexivity.
  - reflexivity.
Defined.

(** C3, as stated, fails: a target that is a double quote comes out as it
    is, so the value of the emitted [href] is no escaped form of it: no
    string free of double quotes stands between the quotes of the tag. *)
Lemma link_prefix_escaped_href_counterexample :
  call (render_prefix LinkSerializer "k1") span_plain block_quoted
    = Return ("<a href=" +:+ dquote +:+ dquote +:+ dquote +:+ ">") /\
  call (render_prefix LinkSerializer "k1") span_plain block_quoted
    <> Return ("<a href=" +:+ dquote +:+ html_escape dquote +:+ dquote +:+ ">") /\
  ~ (exists value,
        occurs (ascii_of_nat 34) value = false /\
        call (render_prefix LinkSerializer "k1") span_plain block_quoted
          = Return ("<a href=" +:+ dquote +:+ value +:+ dquote +:+ ">")).
Proof.
  split; [reflexivity |]. split.
  - vm_compute. discriminate.
  - intros (v & Hv & Hr).
    change (call (render_prefix LinkSerializer "k1") span_plain block_quoted)
      with (Return ("<a href=" +:+ dquote +:+ dquote +:+ dquote +:+ ">")) in Hr.
    apply Return_inj in Hr.
    apply (append_inj_l "<a href=") in Hr.
    apply (append_inj_l dquote) in Hr.
    destruct v as [|c v].
    + vm_compute in Hr. discriminate Hr.
    + rewrite append_cons in Hr. unfold dquote in Hr.
      rewrite append_cons in Hr. injection Hr as Hc _.
      cbn [occurs] in Hv. rewrite <- Hc in Hv.
      destruct (decide (ascii_of_nat 34 = ascii_of_nat 34)); [discriminate | contradiction].
Qed.

(** C9: when the definition the scan reaches for the marker key has no
    [href] attribute, [LinkSerializer.render_prefix] does not raise: it
    returns the anchor tag with an empty target. *)
Theorem link_prefix_missing_href :
  forall (sp : Span) (marker : string) (ctx : Block)
         (pre post : list Dict) (md : Dict),
    markDefs ctx = pre ++ md :: post ->
    Forall (keyed_otherwise marker) pre ->
    md !! "_key" = Some marker ->
    md !! "href" = None ->
    call (render_prefix LinkSerializer marker) sp ctx =
      Return ("<a href=" +:+ dquote +:+ dquote +:+ ">").
Proof.
  intros sp marker ctx pre post md Hctx Hpre Hk Hhref.
  unfold call. cbn [render_prefix].
  rewrite LinkSerializer_render_prefix_outcome. cbn [context].
  rewrite Hctx, next_marker_definition_first by assumption.
  unfold get. now rewrite Hhref.
Qed.

Lemma link_prefix_missing_href_witness :
  call (render_prefix LinkSerializer "k1") span_plain block_bare =
    Return ("<a href=" +:+ dquote +:+ dquote +:+ ">").
Proof.
  apply (link_prefix_missing_href span_plain "k1" block_bare
           [link_definition "k0" "https://otovo.com"] []
           (bare_definition "k1")).
  - reflexivity.
  - repeat constructor. exists "k0". split; [reflexivity | discriminate].
  - reflexivity.
  - reflexivity.
Defined.

(** C10: the first definition with the marker key decides the tag: the
    target is the [href] of that definition (empty when it has none), and
    the definitions after it, with the same key or not, do not count. *)
Theorem link_prefix_first_definition :
  forall (sp : Span) (marker : string) (pre post : list Dict) (md : Dict),
    Forall (keyed_otherwise marker) pre ->
    md !! "_key" = Some marker ->
    call (render_prefix LinkSerializer marker) sp
         {| markDefs := pre ++ md :: post |} =
      Return ("<a href=" +:+ dquote +:+ get md "href" EmptyString
                +:+ dquote +:+ ">") /\
    forall post' : list Dict,
      call (render_prefix LinkSerializer marker) sp
           {| markDefs := pre ++ md :: post' |} =
      call (render_prefix LinkSerializer marker) sp
           {| markDefs := pre ++ md :: post |}.
Proof.
  intros sp marker pre post md Hpre Hk.
  assert (Hany : forall rest,
             call (render_prefix LinkSerializer marker) sp
                  {| markDefs := pre ++ md :: rest |} =
             Return (anchor (get md "href" EmptyString))).
  { intros rest. unfold call. cbn [render_prefix].
    rewrite LinkSerializer_render_prefix_outcome. cbn [context markDefs].
    now rewrite next_marker_definition_first by assumption. }
  split; [apply Hany |].
  intros post'. now rewrite !Hany.
Qed.

Lemma link_prefix_first_definition_witness :
  call (render_prefix LinkSerializer "k1") span_plain block_links =
    Return ("<a href=" +:+ dquote +:+ "https://sanity.io" +:+ dquote +:+ ">") /\
  forall post' : list Dict,
    call (render_prefix LinkSerializer "k1") span_plain
         {| markDefs := [link_definition "k0" "https://otovo.com"]
                          ++ link_definition "k1" "https://sanity.io" :: post' |} =
    call (render_prefix LinkSerializer "k1") span_plain block_links.
Proof.
  apply (link_prefix_first_definition span_plain "k1"
           [link_definition "k0" "https://otovo.com"]
           [link_definition "k1" "https://example.com"]
           (link_definition "k1" "https://sanity.io")).
  - repeat constructor. exists "k0". split; [reflexivity | discriminate].
  - reflexivity.
Defined.

(** ** The classes with a fixed pair of tags *)

(** C4: the emphasis, strong, code and strike-through serializers return
    their fixed opening and closing tags, whatever the span, the marker
    key and the block are. *)
Theorem style_serializers_fixed_tags :
  forall (sp : Span) (marker : string) (ctx : Block),
    (call (render_prefix EmphasisSerializer marker) sp ctx = Return "<em>" /\
     call (render_suffix EmphasisSerializer marker) sp ctx = Return "</em>") /\
    (call (render_prefix StrongSerializer marker) sp ctx = Return "<strong>" /\
     call (render_suffix StrongSerializer marker) sp ctx = Return "</strong>") /\
    (call (render_prefix CodeSerializer marker) sp ctx = Return "<code>" /\
     call (render_suffix CodeSerializer marker) sp ctx = Return "</code>") /\
    (call (render_prefix StrikeThroughSerializer marker) sp ctx = Return "<del>" /\
     call (render_suffix StrikeThroughSerializer marker) sp ctx = Return "</del>") /\
    Forall
      (fun cls : Serializer =>
         forall (sp' : Span) (marker' : string) (ctx' : Block),
           call (render_prefix cls marker') sp' ctx' =
             call (render_prefix cls marker) sp ctx /\
           call (render_suffix cls marker') sp' ctx' =
             call (render_suffix cls marker) sp ctx)
      [EmphasisSerializer; StrongSerializer; CodeSerializer;
       StrikeThroughSerializer].
Proof.
  intros sp marker ctx. repeat split; try reflexivity.
  repeat constructor.
Qed.

(** C5, as amended: the fallback serializer never raises: its prefix is
    [<span>], its suffix is [</span>], and [render] puts the text of the
    span, as it is, between the two. *)
Theorem default_serializer_wraps_raw_text :
  forall (sp : Span) (marker : string) (ctx : Block),
    call (render_prefix DefaultMarkerSerializer marker) sp ctx
      = Return "<span>" /\
    call (render_suffix DefaultMarkerSerializer marker) sp ctx
      = Return "</span>" /\
    call (render DefaultMarkerSerializer marker) sp ctx
      = Return ("<span>" +:+ text sp +:+ "</span>").
Proof.
  intros sp marker ctx. split; [| split]; reflexivity.
Qed.

(** C5, as stated, fails: the fallback serializer renders a span whose
    text is [<script>] with the text as it is between the tags, not with
    its escaped form. *)
Lemma default_serializer_escaped_text_counterexample :
  call (render DefaultMarkerSerializer "highlight") span_script block_empty
    = Return "<span><script></span>" /\
  call (render DefaultMarkerSerializer "highlight") span_script block_empty
    <> Return ("<span>" +:+ html_escape (text span_script) +:+ "</span>").
Proof.
  split; [reflexivity |]. vm_compute. discriminate.
Qed.

(** C6: the underline serializer opens a [span] with the inline style
    [text-decoration:underline;] and closes it with [</span>]. *)
Theorem underline_serializer_tags :
  forall (sp : Span) (marker : string) (ctx : Block),
    call (render_prefix UnderlineSerializer marker) sp ctx =
      Return ("<span style=" +:+ String "034"%char "text-decoration:underline;"
                +:+ String "034"%char ">") /\
    call (render_suffix UnderlineSerializer marker) sp ctx = Return "</span>".
Proof. intros sp marker ctx. split; reflexivity. Qed.

(** C7: the comment serializer returns the same pair of strings for every
    span, marker key and block, never raises, and the pair delimits an
    HTML comment: the prefix starts with [<!--] and the suffix ends with
    [-->]. *)
Theorem comment_serializer_delimiters :
  exists opening closing : string,
    (forall (sp : Span) (marker : string) (ctx : Block),
        call (render_prefix CommentSerializer marker) sp ctx = Return opening /\
        call (render_suffix CommentSerializer marker) sp ctx = Return closing) /\
    (exists rest, opening = "<!--" +:+ rest) /\
    (exists rest, closing = rest +:+ "-->").
Proof.
  exists "<!-- ", " -->". split; [| split].
  - intros sp marker ctx. split; reflexivity.
  - exists " ". reflexivity.
  - exists " ". reflexivity.
Qed.

(** ** Purity *)

(** C8: every method of every class leaves the heap as it found it, also
    when it raises: the text and the marks of the span and the mark
    definitions of the block are what they were before the call. *)
Theorem serializers_leave_arguments_unchanged :
  forall (cls : Serializer) (marker : string) (h : Heap),
    heap_after (render_prefix cls marker) h = h /\
    heap_after (render_suffix cls marker) h = h /\
    heap_after (render cls marker) h = h.
Proof.
  intros cls marker h. split; [| split].
  - apply read_only_render_prefix.
  - apply read_only_render_suffix.
  - apply read_only_render.
Qed.

(** * Further properties of the serializers *)

(** ** More on strings *)

Lemma append_length (a b : string) :
  String.length (a +:+ b) = String.length a + String.length b.
Proof.
  induction a as [|x a IH]; [reflexivity |].
  rewrite append_cons. cbn [String.length]. now rewrite IH.
Qed.

Lemma append_inj_r (a b c : string) : a +:+ c = b +:+ c -> a = b.
Proof.
  revert b. induction a as [|x a IH]; intros [|y b] H.
  - reflexivity.
  - apply (f_equal String.length) in H.
    rewrite !append_length in H. cbn [String.length] in H. lia.
  - apply (f_equal String.length) in H.
    rewrite !append_length in H. cbn [String.length] in H. lia.
  - rewrite !append_cons in H. injection H as -> H. f_equal. now apply IH.
Qed.

(** ** More on the scan *)

Lemma elem_of_middle {A} (pre post : list A) (x : A) : x ∈ pre ++ x :: post.
Proof. apply elem_of_app. right. apply list_elem_of_here. Qed.

(** A definition without key stops the scan with [KeyError]. *)
Lemma next_marker_definition_unkeyed marker (md : Dict) rest :
  md !! "_key" = None ->
  next_marker_definition marker (md :: rest) = Raise (KeyError "_key").
Proof.
  intros Hk. cbn [next_marker_definition]. unfold getitem. now rewrite Hk.
Qed.

(** The three ways the scan can end, each with what the list looked like. *)
Lemma next_marker_definition_cases marker mds :
  (exists pre md post,
      mds = pre ++ md :: post /\
      Forall (keyed_otherwise marker) pre /\
      md !! "_key" = Some marker /\
      next_marker_definition marker mds = Return (Some md)) \/
  (Forall (keyed_otherwise marker) mds /\
   next_marker_definition marker mds = Return None) \/
  (exists pre md post,
      mds = pre ++ md :: post /\
      Forall (keyed_otherwise marker) pre /\
      md !! "_key" = None /\
      next_marker_definition marker mds = Raise (KeyError "_key")).
Proof.
  induction mds as [|d mds IH].
  - right. left. split; [constructor | reflexivity].
  - destruct (d !! "_key") as [k|] eqn:Hk.
    + destruct (decide (k = marker)) as [->|Hne].
      * left. exists [], d, mds. repeat split; [constructor | exact Hk |].
        now apply next_marker_definition_hit.
      * assert (Hd : keyed_otherwise marker d) by (exists k; auto).
        assert (Hstep : next_marker_definition marker (d :: mds) =
                        next_marker_definition marker mds)
          by exact (next_marker_definition_skip marker [d] mds
                      (Forall_cons_2 _ _ _ Hd (Forall_nil_2 _))).
        destruct IH as [(pre & md & post & -> & Hpre & Hmd & Hs)
                       |[[Hall Hs]
                        |(pre & md & post & -> & Hpre & Hmd & Hs)]].
        -- left. exists (d :: pre), md, post.
           repeat split; [now constructor | exact Hmd | congruence].
        -- right. left. split; [now constructor | congruence].
        -- right. right. exists (d :: pre), md, post.
           repeat split; [now constructor | exact Hmd | congruence].
    + right. right. exists [], d, mds.
      repeat split; [constructor | exact Hk |].
      now apply next_marker_definition_unkeyed.
Qed.

(** What [render] computes, from the two hooks. *)
Lemma render_outcome cls marker h :
  outcome (render cls marker) h =
    match outcome (render_prefix cls marker) h with
    | Raise e => Raise e
    | Return p =>
        match outcome (render_suffix cls marker) h with
        | Raise e => Raise e
        | Return s => Return (p +:+ text (span h) +:+ s)
        end
    end.
Proof.
  unfold render.
  rewrite outcome_bind by apply read_only_render_prefix.
  destruct (outcome (render_prefix cls marker) h) as [p|e]; [| reflexivity].
  rewrite outcome_bind by apply read_only_span_text.
  cbn [outcome span_text fst].
  rewrite outcome_bind by apply read_only_render_suffix.
  destruct (outcome (render_suffix cls marker) h) as [s|e]; [| reflexivity].
  cbn [outcome ret fst]. now rewrite append_assoc.
Qed.

(** The closing hook of a class with a tag returns, whatever it is given. *)
Lemma render_suffix_returns cls marker h :
  cls <> MarkerSerializer ->
  exists s, outcome (render_suffix cls marker) h = Return s.
Proof. intros Hcls. destruct cls; try contradiction; eexists; reflexivity. Qed.

(** ** The lookup of [LinkSerializer.render_prefix], case by case *)

(** X1: [LinkSerializer.render_prefix] raises [ValueError] exactly when
    every mark definition of the block has a key and none of the keys is
    the marker key; an empty definition never triggers it, because the
    scan cannot return one. *)
Theorem link_prefix_value_error_iff :
  forall (sp : Span) (marker : string) (ctx : Block),
    (exists msg,
        call (render_prefix LinkSerializer marker) sp ctx
          = Raise (ValueError msg))
    <-> Forall (keyed_otherwise marker) (markDefs ctx).
Proof.
  intros sp marker ctx. unfold call. cbn [render_prefix].
  rewrite LinkSerializer_render_prefix_outcome. cbn [context].
  destruct (next_marker_definition_cases marker (markDefs ctx))
    as [(pre & md & post & _ & _ & _ & Hs)
       |[[Hall Hs]|(pre & md & post & _ & _ & _ & Hs)]];
    rewrite Hs.
  - split; [intros [msg [=]] |].
    intros Hall. rewrite next_marker_definition_absent in Hs by exact Hall.
    discriminate Hs.
  - split; [intros _; exact Hall | intros _; eauto].
  - split; [intros [msg [=]] |].
    intros Hall. rewrite next_marker_definition_absent in Hs by exact Hall.
    discriminate Hs.
Qed.

(** X2: a mark definition without [_key] that the scan meets before any
    definition with the marker key makes [LinkSerializer.render_prefix]
    raise [KeyError] for [_key], also when a definition with the marker
    key comes later in the list. *)
Theorem link_prefix_unkeyed_definition :
  forall (sp : Span) (marker : string) (ctx : Block)
         (pre post : list Dict) (md : Dict),
    markDefs ctx = pre ++ md :: post ->
    Forall (keyed_otherwise marker) pre ->
    md !! "_key" = None ->
    call (render_prefix LinkSerializer marker) sp ctx = Raise (KeyError "_key").
Proof.
  intros sp marker ctx pre post md Hctx Hpre Hk.
  unfold call. cbn [render_prefix].
  rewrite LinkSerializer_render_prefix_outcome. cbn [context].
  rewrite Hctx, next_marker_definition_skip by exact Hpre.
  now rewrite next_marker_definition_unkeyed.
Qed.

Lemma link_prefix_unkeyed_definition_witness :
  call (render_prefix LinkSerializer "k1") span_plain block_unkeyed
    = Raise (KeyError "_key").
Proof.
  apply (link_prefix_unkeyed_definition span_plain "k1" block_unkeyed
           [link_definition "k0" "https://otovo.com"]
           [link_definition "k1" "https://sanity.io"]
           (unkeyed_definition "https://sanity.io")).
  - reflexivity.
  - repeat constructor. exists "k0". split; [reflexivity | discriminate].
  - reflexivity.
Defined.

(** X3: [LinkSerializer.render_prefix] ends in one of three ways and no
    other: it returns the anchor tag for the [href] of a definition of the
    block that has the marker key, or it raises the [ValueError] that
    names the marker key, or it raises [KeyError] for [_key]. *)
Theorem link_prefix_outcomes :
  forall (sp : Span) (marker : string) (ctx : Block),
    (exists md : Dict,
        md ∈ markDefs ctx /\
        md !! "_key" = Some marker /\
        call (render_prefix LinkSerializer marker) sp ctx =
          Return ("<a href=" +:+ dquote +:+ get md "href" EmptyString
                    +:+ dquote +:+ ">")) \/
    call (render_prefix LinkSerializer marker) sp ctx =
      Raise (ValueError ("Marker definition for key: " +:+ marker
                           +:+ " not found in parent block context")) \/
    call (render_prefix LinkSerializer marker) sp ctx = Raise (KeyError "_key").
Proof.
  intros sp marker ctx. unfold call. cbn [render_prefix].
  rewrite LinkSerializer_render_prefix_outcome. cbn [context].
  destruct (next_marker_definition_cases marker (markDefs ctx))
    as [(pre & md & post & Hl & _ & Hk & Hs)
       |[[_ Hs]|(pre & md & post & _ & _ & _ & Hs)]];
    rewrite Hs.
  - left. exists md. split; [| split; [exact Hk | reflexivity]].
    rewrite Hl. apply elem_of_middle.
  - right. left. reflexivity.
  - right. right. reflexivity.
Qed.

(** X4: when every mark definition of the block has a key and one of them
    has the marker key, [LinkSerializer.render_prefix] raises nothing: it
    returns the anchor tag of a definition with that key. *)
Theorem link_prefix_resolves :
  forall (sp : Span) (marker : string) (ctx : Block),
    Forall (fun md : Dict => is_Some (md !! "_key")) (markDefs ctx) ->
    (exists md : Dict, md ∈ markDefs ctx /\ md !! "_key" = Some marker) ->
    exists md : Dict,
      md ∈ markDefs ctx /\
      md !! "_key" = Some marker /\
      call (render_prefix LinkSerializer marker) sp ctx =
        Return ("<a href=" +:+ dquote +:+ get md "href" EmptyString
                  +:+ dquote +:+ ">").
Proof.
  intros sp marker ctx Hkeyed (md0 & Hin0 & Hk0).
  unfold call. cbn [render_prefix].
  rewrite LinkSerializer_render_prefix_outcome. cbn [context].
  destruct (next_marker_definition_cases marker (markDefs ctx))
    as [(pre & md & post & Hl & _ & Hk & Hs)
       |[[Hall _]|(pre & md & post & Hl & _ & Hk & _)]].
  - rewrite Hs. exists md. split; [| split; [exact Hk | reflexivity]].
    rewrite Hl. apply elem_of_middle.
  - exfalso. rewrite Forall_forall in Hall.
    destruct (Hall md0 Hin0) as (k & Hk & Hne). congruence.
  - exfalso. rewrite Forall_forall in Hkeyed.
    assert (Hin : md ∈ markDefs ctx).
    { rewrite Hl. apply elem_of_middle. }
    destruct (Hkeyed md Hin) as [k Hk']. congruence.
Qed.

Lemma link_prefix_resolves_witness :
  exists md : Dict,
    md ∈ markDefs block_links /\
    md !! "_key" = Some "k1" /\
    call (render_prefix LinkSerializer "k1") span_plain block_links =
      Return ("<a href=" +:+ dquote +:+ get md "href" EmptyString
                +:+ dquote +:+ ">").
Proof.
  apply (link_prefix_resolves span_plain "k1" block_links).
  - repeat constructor; eexists; reflexivity.
  - exists (link_definition "k1" "https://sanity.io"). split; [| reflexivity].
    apply list_elem_of_further, list_elem_of_here.
Defined.

(** X5: a tag that [LinkSerializer.render_prefix] returns for a block
    stays the same when mark definitions are added at the end of the
    block's list. *)
Theorem link_prefix_stable_under_extension :
  forall (sp : Span) (marker : string) (mds extra : list Dict) (opening : string),
    call (render_prefix LinkSerializer marker) sp {| markDefs := mds |}
      = Return opening ->
    call (render_prefix LinkSerializer marker) sp {| markDefs := mds ++ extra |}
      = Return opening.
Proof.
  intros sp marker mds extra opening. unfold call. cbn [render_prefix].
  rewrite !LinkSerializer_render_prefix_outcome. cbn [context markDefs].
  destruct (next_marker_definition_cases marker mds)
    as [(pre & md & post & -> & Hpre & Hk & Hs)
       |[[_ Hs]|(pre & md & post & _ & _ & _ & Hs)]];
    rewrite Hs; [| discriminate | discriminate].
  intros H. rewrite <- app_assoc. cbn [app].
  now rewrite next_marker_definition_first by assumption.
Qed.

Lemma link_prefix_stable_under_extension_witness :
  call (render_prefix LinkSerializer "k1") span_plain
       {| markDefs := markDefs block_unique ++ markDefs block_unkeyed |}
    = Return ("<a href=" +:+ dquote +:+ "https://sanity.io" +:+ dquote +:+ ">").
Proof.
  apply (link_prefix_stable_under_extension span_plain "k1"
           (markDefs block_unique) (markDefs block_unkeyed)).
  reflexivity.
Defined.

(** Two lists of definitions that are alike, one by one, end the scan the
    same way. *)
Lemma next_marker_definition_alike marker mds mds' :
  Forall2 same_key_and_href mds mds' ->
  match next_marker_definition marker mds,
        next_marker_definition marker mds' with
  | Return (Some md), Return (Some md') => md !! "href" = md' !! "href"
  | Return None, Return None => True
  | Raise e, Raise e' => e = e'
  | _, _ => False
  end.
Proof.
  induction 1 as [|md md' mds mds' [Hkey Hhref] _ IH]; [exact I |].
  cbn [next_marker_definition]. unfold getitem. rewrite <- Hkey.
  destruct (md !! "_key") as [k|]; [| reflexivity].
  destruct (decide (k = marker)); [exact Hhref | exact IH].
Qed.

(** Keys that do not repeat tell the definitions of a list apart. *)
Lemma unique_key_same_definition (mds : list Dict) (md md' : Dict) :
  NoDup ((fun d : Dict => d !! "_key") <$> mds) ->
  md ∈ mds -> md' ∈ mds ->
  md !! "_key" = md' !! "_key" ->
  md = md'.
Proof.
  induction mds as [|d mds IH]; intros Hnd Hin Hin' Hk.
  - now apply elem_of_nil in Hin.
  - rewrite fmap_cons in Hnd. apply NoDup_cons in Hnd as [Hfresh Hnd].
    apply elem_of_cons in Hin as [->|Hin];
      apply elem_of_cons in Hin' as [->|Hin'].
    + reflexivity.
    + exfalso. apply Hfresh. rewrite Hk.
      now apply (list_elem_of_fmap_2 (fun d : Dict => d !! "_key")).
    + exfalso. apply Hfresh. rewrite <- Hk.
      now apply (list_elem_of_fmap_2 (fun d : Dict => d !! "_key")).
    + now apply IH.
Qed.

(** The opening hook does not look at the span, the closing hook at
    nothing but the class. *)
Lemma render_prefix_ignores_span cls marker sp sp' ctx :
  call (render_prefix cls marker) sp ctx = call (render_prefix cls marker) sp' ctx.
Proof.
  unfold call. destruct cls; try reflexivity.
  cbn [render_prefix]. now rewrite !LinkSerializer_render_prefix_outcome.
Qed.

Lemma render_suffix_ignores_arguments cls marker marker' h h' :
  outcome (render_suffix cls marker) h = outcome (render_suffix cls marker') h'.
Proof. destruct cls; reflexivity. Qed.

(** An opening hook that returns belongs to a class with a tag. *)
Lemma render_prefix_returns_tagged cls marker h p :
  outcome (render_prefix cls marker) h = Return p -> cls <> MarkerSerializer.
Proof. intros H ->. discriminate H. Qed.

(** X6: of a mark definition [LinkSerializer.render_prefix] reads [_key]
    and [href] and nothing else: two blocks whose definitions agree on
    these two attributes, one by one, give the same tag or the same
    error, whatever [_type] or other attributes the definitions carry. *)
Theorem link_prefix_reads_key_and_href_only :
  forall (sp : Span) (marker : string) (mds mds' : list Dict),
    Forall2 same_key_and_href mds mds' ->
    call (render_prefix LinkSerializer marker) sp {| markDefs := mds |} =
    call (render_prefix LinkSerializer marker) sp {| markDefs := mds' |}.
Proof.
  intros sp marker mds mds' Halike. unfold call. cbn [render_prefix].
  rewrite !LinkSerializer_render_prefix_outcome. cbn [context markDefs].
  pose proof (next_marker_definition_alike marker mds mds' Halike) as H.
  destruct (next_marker_definition marker mds) as [[md|]|e],
           (next_marker_definition marker mds') as [[md'|]|e'];
    try contradiction; try reflexivity.
  - unfold get. now rewrite H.
  - now subst.
Qed.

Lemma link_prefix_reads_key_and_href_only_witness :
  call (render_prefix LinkSerializer "k1") span_plain
       {| markDefs := [link_definition "k1" "https://sanity.io"] |} =
  call (render_prefix LinkSerializer "k1") span_plain
       {| markDefs := [<["_key" := "k1"]> (<["_type" := "comment"]>
                         (<["href" := "https://sanity.io"]>
                            (<["title" := "Sanity"]> ∅)))] |}.
Proof.
  apply (link_prefix_reads_key_and_href_only span_plain "k1").
  repeat constructor.
Defined.

(** X7: when the keys of the mark definitions are all present and do not
    repeat, the order of the definitions in the block does not matter to
    [LinkSerializer.render_prefix]: every rearrangement of the list gives
    the same tag or the same error. *)
Theorem link_prefix_order_independent :
  forall (sp : Span) (marker : string) (mds mds' : list Dict),
    mds ≡ₚ mds' ->
    Forall (fun md : Dict => is_Some (md !! "_key")) mds ->
    NoDup ((fun md : Dict => md !! "_key") <$> mds) ->
    call (render_prefix LinkSerializer marker) sp {| markDefs := mds |} =
    call (render_prefix LinkSerializer marker) sp {| markDefs := mds' |}.
Proof.
  intros sp marker mds mds' Hperm Hkeyed Hnd. unfold call. cbn [render_prefix].
  rewrite !LinkSerializer_render_prefix_outcome. cbn [context markDefs].
  assert (Hunkeyed : forall l : list Dict, l ≡ₚ mds ->
            forall pre md post, l = pre ++ md :: post ->
            md !! "_key" = None -> False).
  { intros l Hl pre md post -> Hk. rewrite Forall_forall in Hkeyed.
    destruct (Hkeyed md) as [k Hk']; [| congruence].
    rewrite <- Hl. apply elem_of_middle. }
  assert (Hmiss : forall l l' : list Dict, l ≡ₚ l' ->
            forall pre md post, l = pre ++ md :: post ->
            md !! "_key" = Some marker ->
            Forall (keyed_otherwise marker) l' -> False).
  { intros l l' Hl pre md post -> Hk Hall. rewrite Forall_forall in Hall.
    destruct (Hall md) as (k & Hk' & Hne); [| congruence].
    rewrite <- Hl. apply elem_of_middle. }
  destruct (next_marker_definition_cases marker mds)
    as [(pre & md & post & Hl & _ & Hk & Hs)
       |[[Hall Hs]|(pre & md & post & Hl & _ & Hk & _)]];
    [| | exfalso; exact (Hunkeyed mds (reflexivity _) pre md post Hl Hk)];
    destruct (next_marker_definition_cases marker mds')
      as [(pre' & md' & post' & Hl' & _ & Hk' & Hs')
         |[[Hall' Hs']|(pre' & md' & post' & Hl' & _ & Hk' & _)]];
    try (exfalso; exact (Hunkeyed mds' (symmetry Hperm) pre' md' post' Hl' Hk')).
  - rewrite Hs, Hs'. replace md' with md; [reflexivity |].
    apply (unique_key_same_definition mds); [exact Hnd | | | congruence].
    + rewrite Hl. apply elem_of_middle.
    + rewrite Hperm, Hl'. apply elem_of_middle.
  - exfalso. exact (Hmiss mds mds' Hperm pre md post Hl Hk Hall').
  - exfalso. exact (Hmiss mds' mds (symmetry Hperm) pre' md' post' Hl' Hk' Hall).
  - now rewrite Hs, Hs'.
Qed.

Lemma link_prefix_order_independent_witness :
  call (render_prefix LinkSerializer "k1") span_plain block_unique =
  call (render_prefix LinkSerializer "k1") span_plain block_unique_swapped.
Proof.
  apply (link_prefix_order_independent span_plain "k1"
           (markDefs block_unique) (markDefs block_unique_swapped)).
  - apply perm_swap.
  - repeat constructor; eexists; reflexivity.
  - refine (bool_decide_unpack _ _). vm_compute. exact I.
Defined.

(** ** [render] and its two hooks *)

(** X8: for a marker key that the scan resolves to a definition with a
    target, [LinkSerializer.render] returns the whole anchor element: the
    opening tag with the target, the text of the span as it is, and the
    closing tag. *)
Theorem link_render_anchor_element :
  forall (sp : Span) (marker : string) (ctx : Block)
         (pre post : list Dict) (md : Dict) (href : string),
    markDefs ctx = pre ++ md :: post ->
    Forall (keyed_otherwise marker) pre ->
    md !! "_key" = Some marker ->
    md !! "href" = Some href ->
    call (render LinkSerializer marker) sp ctx =
      Return ("<a href=" +:+ dquote +:+ href +:+ dquote +:+ ">"
                +:+ text sp +:+ "</a>").
Proof.
  intros sp marker ctx pre post md href Hctx Hpre Hk Hhref.
  unfold call. rewrite render_outcome. cbn [render_prefix].
  rewrite LinkSerializer_render_prefix_outcome. cbn [context span].
  rewrite Hctx, next_marker_definition_first by assumption.
  unfold get. rewrite Hhref. cbn [render_suffix]. unfold anchor.
  change (outcome (MarkerSerializer_render_suffix LinkSerializer marker)
            {| span := sp; context := ctx |}) with (Return "</a>").
  cbv beta iota. now rewrite !append_assoc.
Qed.

Lemma link_render_anchor_element_witness :
  call (render LinkSerializer "k1") span_plain block_links =
    Return ("<a href=" +:+ dquote +:+ "https://sanity.io" +:+ dquote +:+ ">"
              +:+ text span_plain +:+ "</a>").
Proof.
  apply (link_render_anchor_element span_plain "k1" block_links
           [link_definition "k0" "https://otovo.com"]
           [link_definition "k1" "https://example.com"]
           (link_definition "k1" "https://sanity.io") "https://sanity.io").
  - reflexivity.
  - repeat constructor. exists "k0". split; [reflexivity | discriminate].
  - reflexivity.
  - reflexivity.
Defined.

(** X9: for every class, [render] raises exactly the errors of
    [render_prefix]: it raises an exception when and only when
    [render_prefix] raises that exception on the same arguments, so a
    failed lookup yields no partial markup and the closing hook adds no
    error of its own. *)
Theorem render_raises_as_prefix :
  forall (cls : Serializer) (marker : string) (sp : Span) (ctx : Block)
         (e : Exception),
    call (render cls marker) sp ctx = Raise e <->
    call (render_prefix cls marker) sp ctx = Raise e.
Proof.
  intros cls marker sp ctx e. unfold call. rewrite render_outcome.
  destruct (outcome (render_prefix cls marker) _) as [p|e'] eqn:Hp;
    [| reflexivity].
  apply render_prefix_returns_tagged in Hp.
  destruct (render_suffix_returns cls marker {| span := sp; context := ctx |} Hp)
    as [s ->].
  split; discriminate.
Qed.

(** X10: the closing hook of every class with a tag never raises and
    always returns the same string, also for [LinkSerializer] on a block
    in which the marker key has no definition. *)
Theorem render_suffix_never_raises :
  forall cls : Serializer,
    cls <> MarkerSerializer ->
    exists closing : string,
      forall (sp : Span) (marker : string) (ctx : Block),
        call (render_suffix cls marker) sp ctx = Return closing.
Proof.
  intros cls Hcls.
  destruct (render_suffix_returns cls EmptyString
              {| span := span_plain; context := block_empty |} Hcls) as [s Hs].
  exists s. intros sp marker ctx. unfold call. rewrite <- Hs.
  apply render_suffix_ignores_arguments.
Qed.

Lemma render_suffix_never_raises_witness :
  exists closing : string,
    forall (sp : Span) (marker : string) (ctx : Block),
      call (render_suffix LinkSerializer marker) sp ctx = Return closing.
Proof. apply (render_suffix_never_raises LinkSerializer). discriminate. Defined.

(** X11: only [LinkSerializer] looks at the block and at the marker key:
    for every other class the three methods give the same result on any
    two blocks and any two marker keys. *)
Theorem only_link_reads_block_and_marker :
  forall cls : Serializer,
    cls <> LinkSerializer ->
    forall (sp : Span) (marker marker' : string) (ctx ctx' : Block),
      call (render_prefix cls marker) sp ctx =
        call (render_prefix cls marker') sp ctx' /\
      call (render_suffix cls marker) sp ctx =
        call (render_suffix cls marker') sp ctx' /\
      call (render cls marker) sp ctx = call (render cls marker') sp ctx'.
Proof.
  intros cls Hcls sp marker marker' ctx ctx'.
  destruct cls; try contradiction; repeat split; reflexivity.
Qed.

Lemma only_link_reads_block_and_marker_witness :
  call (render_prefix CommentSerializer "note") span_plain block_empty =
    call (render_prefix CommentSerializer "k1") span_plain block_links /\
  call (render_suffix CommentSerializer "note") span_plain block_empty =
    call (render_suffix CommentSerializer "k1") span_plain block_links /\
  call (render CommentSerializer "note") span_plain block_empty =
    call (render CommentSerializer "k1") span_plain block_links.
Proof.
  apply (only_link_reads_block_and_marker CommentSerializer). discriminate.
Defined.

(** X12: no method reads the marks of the span: [render_prefix] and
    [render_suffix] give the same result for any two spans, and [render]
    for any two spans with the same text; in particular the marker key
    need not be one of the marks of the span. *)
Theorem span_marks_never_read :
  forall (cls : Serializer) (marker : string) (ctx : Block)
         (sp sp' : Span) (txt : string) (ms ms' : list string),
    call (render_prefix cls marker) sp ctx =
      call (render_prefix cls marker) sp' ctx /\
    call (render_suffix cls marker) sp ctx =
      call (render_suffix cls marker) sp' ctx /\
    call (render cls marker) {| text := txt; marks := ms |} ctx =
      call (render cls marker) {| text := txt; marks := ms' |} ctx.
Proof.
  intros cls marker ctx sp sp' txt ms ms'. split; [| split].
  - apply render_prefix_ignores_span.
  - apply render_suffix_ignores_arguments.
  - unfold call. rewrite !render_outcome.
    pose proof (render_prefix_ignores_span cls marker
                  {| text := txt; marks := ms |}
                  {| text := txt; marks := ms' |} ctx) as Hp.
    unfold call in Hp. rewrite Hp.
    now rewrite (render_suffix_ignores_arguments cls marker marker
                   {| span := {| text := txt; marks := ms |}; context := ctx |}
                   {| span := {| text := txt; marks := ms' |}; context := ctx |}).
Qed.

(** X13: the two hooks of a class pair up: for every class but the
    comment one, a string that [render_prefix] returns starts with [<]
    and the tag of the class, and [render_suffix] returns the closing tag
    of the same element. *)
Theorem hooks_open_and_close_the_same_element :
  forall (cls : Serializer) (name : string) (marker : string)
         (sp : Span) (ctx : Block) (opening : string),
    tag cls = Return name ->
    cls <> CommentSerializer ->
    call (render_prefix cls marker) sp ctx = Return opening ->
    (exists rest, opening = "<" +:+ name +:+ rest) /\
    call (render_suffix cls marker) sp ctx = Return ("</" +:+ name +:+ ">").
Proof.
  intros cls name marker sp ctx opening Htag Hcls Hopen.
  destruct cls; try contradiction; try discriminate Htag;
    apply Return_inj in Htag; subst name; (split; [| reflexivity]);
    try (apply Return_inj in Hopen; subst opening; eexists; reflexivity).
  unfold call in Hopen. cbn [render_prefix] in Hopen.
  rewrite LinkSerializer_render_prefix_outcome in Hopen.
  destruct (next_marker_definition marker _) as [[md|]|e];
    [| discriminate Hopen | discriminate Hopen].
  apply Return_inj in Hopen. subst opening. eexists. reflexivity.
Qed.

Lemma hooks_open_and_close_the_same_element_witness :
  (exists rest,
      "<span style=" +:+ dquote +:+ "text-decoration:underline;"
        +:+ dquote +:+ ">" = "<" +:+ "span" +:+ rest) /\
  call (render_suffix UnderlineSerializer "underline") span_plain block_empty
    = Return ("</" +:+ "span" +:+ ">").
Proof.
  apply (hooks_open_and_close_the_same_element UnderlineSerializer "span"
           "underline" span_plain block_empty).
  - reflexivity.
  - discriminate.
  - reflexivity.
Defined.

(** X14: the base class only declares [tag], so each of its three
    methods, called on the base class itself, raises [AttributeError]
    for [tag]; [render] does so before it reads the text of the span. *)
Theorem base_class_has_no_tag :
  forall (sp : Span) (marker : string) (ctx : Block),
    call (render_prefix MarkerSerializer marker) sp ctx
      = Raise (AttributeError "tag") /\
    call (render_suffix MarkerSerializer marker) sp ctx
      = Raise (AttributeError "tag") /\
    call (render MarkerSerializer marker) sp ctx
      = Raise (AttributeError "tag").
Proof. intros sp marker ctx. repeat split; reflexivity. Qed.

(** X15: [render] loses nothing of the text: when it returns the same
    string for two spans, with the same class, marker key and block, the
    two spans have the same text. *)
Theorem render_injective_in_text :
  forall (cls : Serializer) (marker : string) (ctx : Block)
         (sp sp' : Span) (result : string),
    call (render cls marker) sp ctx = Return result ->
    call (render cls marker) sp' ctx = Return result ->
    text sp = text sp'.
Proof.
  intros cls marker ctx sp sp' result. unfold call. rewrite !render_outcome.
  pose proof (render_prefix_ignores_span cls marker sp sp' ctx) as Hp.
  unfold call in Hp. rewrite <- Hp.
  rewrite <- (render_suffix_ignores_arguments cls marker marker
                {| span := sp; context := ctx |}
                {| span := sp'; context := ctx |}).
  cbn [span].
  destruct (outcome (render_prefix cls marker) _) as [p|e]; [| discriminate].
  destruct (outcome (render_suffix cls marker) _) as [s|e]; [| discriminate].
  intros H H'. apply Return_inj in H, H'. subst result.
  apply append_inj_l in H'. now apply append_inj_r in H'.
Qed.

Lemma render_injective_in_text_witness :
  text span_plain = text {| text := "Sanity"; marks := [] |}.
Proof.
  apply (render_injective_in_text StrongSerializer "strong" block_empty
           span_plain {| text := "Sanity"; marks := [] |}
           "<strong>Sanity</strong>"); reflexivity.
Defined.
